(** * The git-graph statement normalizer

    A shallow embedding of
    [packages/mermaid/src/diagrams/git/gitGraphParser.ts]: the function
    [populate] walks an already parsed git-graph tree and forwards every
    top-level statement to a database object ([db]) through a table of
    adapters keyed on the statement's [$type].

    The program is effectful in three ways: it calls methods of [db], it
    calls [log.error], and a JavaScript call may throw.  A run is therefore
    modelled as the ordered trace of the calls it made together with its
    completion (normal, or an exception that escaped). *)

From Stdlib Require Import ZArith.
From stdpp Require Import gmap strings list.

Local Open Scope string_scope.
Local Open Scope list_scope.
Local Open Scope Z_scope.

(** ** JavaScript objects *)

Module Js.

(** The own properties of [Object.prototype] (ECMA-262, sections 20.1.3
    and B.2.2).  Every object written as a literal inherits them, so a
    property read [o[k]] that misses the own properties of [o] finds
    them. *)
Inductive Builtin : Type :=
| constructor            (* the function Object *)
| __proto__             (* accessor; reads as Object.prototype itself *)
| hasOwnProperty
| isPrototypeOf
| propertyIsEnumerable
| toLocaleString
| toString
| valueOf
| __defineGetter__
| __defineSetter__
| __lookupGetter__
| __lookupSetter__.

Definition Object_prototype : gmap string Builtin :=
  list_to_map
    [ ("constructor", constructor);
      ("__proto__", __proto__);
      ("hasOwnProperty", hasOwnProperty);
      ("isPrototypeOf", isPrototypeOf);
      ("propertyIsEnumerable", propertyIsEnumerable);
      ("toLocaleString", toLocaleString);
      ("toString", toString);
      ("valueOf", valueOf);
      ("__defineGetter__", __defineGetter__);
      ("__defineSetter__", __defineSetter__);
      ("__lookupGetter__", __lookupGetter__);
      ("__lookupSetter__", __lookupSetter__) ].

(** The result of reading a property of an object whose own properties
    hold values of type [A]. *)
Inductive Value (A : Type) : Type :=
| own (a : A)
| inherited (b : Builtin)
| undefined.
Arguments own {A} a.
Arguments inherited {A} b.
Arguments undefined {A}.

(** [o[k]] for an ordinary object [o] given by its own properties:
    own properties first, then the prototype, else [undefined]. *)
Definition get {A : Type} (o : gmap string A) (k : string) : Value A :=
  match o !! k with
  | Some a => own a
  | None =>
      match Object_prototype !! k with
      | Some b => inherited b
      | None => undefined
      end
  end.

(** [if (v)] for the result of a read from a table of functions: a
    function and an object are truthy, [undefined] is falsy. *)
Definition truthy {A : Type} (v : Value A) : bool :=
  match v with
  | undefined => false
  | _ => true
  end.

(** [if (s)] for a string: the empty string is falsy. *)
Definition truthy_string (s : string) : bool :=
  match s with
  | EmptyString => false
  | String _ _ => true
  end.

Inductive Exception : Type := TypeError.

Inductive Completion : Type :=
| Normal
| Throw (e : Exception).

(** [f(x)] where [f] is a member of [Object.prototype], called as a
    plain function in strict code (so [this] is [undefined]) on one
    argument that is an ordinary object.  [Object(x)] returns [x] and
    [toString] returns a string; [__proto__] reads as an object, which
    is not callable; every other member starts with [ToObject(this)]
    (or invokes a method of [this]), which throws on [undefined]
    (ECMA-262, 20.1.3 and B.2.2). *)
Definition call_builtin (b : Builtin) : Completion :=
  match b with
  | constructor | toString => Normal
  | _ => Throw TypeError
  end.

End Js.

(** ** The parsed tree *)

Module Ast.

(** [parseStatement] takes [statement: any]: an object with its
    discriminant [$type] and whichever fields it happens to carry.  The
    record lists the fields the adapters read, at the types the Ast
    interfaces declare them; a field that is not set reads as
    [undefined], here [None]. *)
Record Statement : Type := {
  dollar_type : string;              (* $type *)
  id : option string;
  message : option string;
  type : option string;
  tags : option (list string);
  name : option string;
  order : option Z;
  branch : option string;
  parent : option string
}.

Record GitGraph : Type := {
  dir : option string;
  statements : list Statement
}.

(** An object carrying only its discriminant. *)
Definition bare (tag : string) : Statement :=
  {| dollar_type := tag; id := None; message := None; type := None;
     tags := None; name := None; order := None; branch := None;
     parent := None |}.

End Ast.

(** ** The database interface [GitGraphDBParseProvider] *)

Module db.

(** One constructor per method, holding the positional arguments of the
    call.  An argument is an [option] (or a [Js.Value]) exactly where
    the adapter can hand over [undefined].  A call is recorded and
    returns, as with the [vi.fn()] doubles of the in-source test: what
    the database does with it is not part of this program. *)
Inductive Call : Type :=
| setDirection (dir : string)
| commit (message : string) (id : option string) (type : Js.Value Z)
         (tags : option (list string))
| branch (name : option string) (order : Z)
| merge (branch : option string) (id : string) (type : Js.Value Z)
        (tags : option (list string))
| checkout (branch : option string)
| cherryPick (id : option string) (arg2 : string)
             (tags : option (list string)) (parent : option string).

End db.

(** ** Concrete collaborators *)

(** Modelled from the spec: [gitGraphTypes.js], which defines the
    [commitType] table, is not among the sources.  The spec names the tags
    NORMAL, REVERSE and HIGHLIGHT; the in-source test fixes the code of
    NORMAL to 0.  The normalizer below takes the table as a parameter; this
    instance serves to run it. *)
Definition commitType_table : gmap string Z :=
  list_to_map [ ("NORMAL", 0); ("REVERSE", 1); ("HIGHLIGHT", 2) ].

(** Modelled from the spec: [populateCommonDb.js] is not among the sources
    either; the spec leaves it a black box that applies the shared set-up
    (title, accessibility text).  The normalizer below takes it as a
    parameter; this instance is the set-up that has nothing to apply and
    makes no call. *)
Definition populateCommonDb_mock (ast : Ast.GitGraph) : list Empty_set := [].

(** ** The tree of the in-source test *)

Definition commit1 : Ast.Statement :=
  {| Ast.dollar_type := "Commit"; Ast.id := Some "1";
     Ast.message := Some "test"; Ast.type := Some "NORMAL";
     Ast.tags := Some ["tag1"; "tag2"]; Ast.name := None;
     Ast.order := None; Ast.branch := None; Ast.parent := None |}.

Definition branch1 : Ast.Statement :=
  {| Ast.dollar_type := "Branch"; Ast.id := None; Ast.message := None;
     Ast.type := None; Ast.tags := None; Ast.name := Some "newBranch";
     Ast.order := Some 1; Ast.branch := None; Ast.parent := None |}.

Definition merge1 : Ast.Statement :=
  {| Ast.dollar_type := "Merge"; Ast.id := Some "1"; Ast.message := None;
     Ast.type := Some "NORMAL"; Ast.tags := Some ["tag1"; "tag2"];
     Ast.name := None; Ast.order := None;
     Ast.branch := Some "newBranch"; Ast.parent := None |}.

Definition checkout1 : Ast.Statement :=
  {| Ast.dollar_type := "Checkout"; Ast.id := None; Ast.message := None;
     Ast.type := None; Ast.tags := None; Ast.name := None;
     Ast.order := None; Ast.branch := Some "newBranch";
     Ast.parent := None |}.

Definition cherryPick1 : Ast.Statement :=
  {| Ast.dollar_type := "CherryPicking"; Ast.id := Some "1";
     Ast.message := None; Ast.type := None;
     Ast.tags := Some ["tag1"; "tag2"]; Ast.name := None;
     Ast.order := None; Ast.branch := None; Ast.parent := Some "2" |}.

Definition gitGraphAst : Ast.GitGraph :=
  {| Ast.dir := None;
     Ast.statements := [commit1; branch1; merge1; checkout1; cherryPick1] |}.

(** A branch statement that gives no order. *)
Definition branch_unordered : Ast.Statement :=
  {| Ast.dollar_type := "Branch"; Ast.id := None; Ast.message := None;
     Ast.type := None; Ast.tags := None; Ast.name := Some "develop";
     Ast.order := None; Ast.branch := None; Ast.parent := None |}.

(** A statement with its [tags], or its [type], set anew. *)
Definition with_tags (s : Ast.Statement) (ts : option (list string))
  : Ast.Statement :=
  {| Ast.dollar_type := Ast.dollar_type s; Ast.id := Ast.id s;
     Ast.message := Ast.message s; Ast.type := Ast.type s;
     Ast.tags := ts; Ast.name := Ast.name s; Ast.order := Ast.order s;
     Ast.branch := Ast.branch s; Ast.parent := Ast.parent s |}.

Definition with_type (s : Ast.Statement) (t : option string)
  : Ast.Statement :=
  {| Ast.dollar_type := Ast.dollar_type s; Ast.id := Ast.id s;
     Ast.message := Ast.message s; Ast.type := t;
     Ast.tags := Ast.tags s; Ast.name := Ast.name s;
     Ast.order := Ast.order s; Ast.branch := Ast.branch s;
     Ast.parent := Ast.parent s |}.

(** ** The tags, by what [parseStatement] does with them *)

(** The own keys of the table [parsers]. *)
Definition recognized_tags : list string :=
  ["Commit"; "Branch"; "Merge"; "Checkout"; "CherryPicking"].

(** The names of the members of [Object.prototype] whose call as
    [parser(statement)] throws. *)
Definition aborting_tags : list string :=
  ["__proto__"; "hasOwnProperty"; "isPrototypeOf"; "propertyIsEnumerable";
   "toLocaleString"; "valueOf"; "__defineGetter__"; "__defineSetter__";
   "__lookupGetter__"; "__lookupSetter__"].

(** The names of the members of [Object.prototype] whose call returns. *)
Definition silent_tags : list string := ["constructor"; "toString"].

Definition aborts (s : Ast.Statement) : bool :=
  bool_decide (Ast.dollar_type s ∈ aborting_tags).

(** The statements the loop gets through: those before the first one that
    aborts. *)
Fixpoint before_abort (l : list Ast.Statement) : list Ast.Statement :=
  match l with
  | [] => []
  | s :: rest => if aborts s then [] else s :: before_abort rest
  end.

(** The call of setDirection a tree asks for, if any. *)
Definition direction_call (ast : Ast.GitGraph) : list db.Call :=
  match Ast.dir ast with
  | Some d => if Js.truthy_string d then [db.setDirection d] else []
  | None => []
  end.

(** ** The normalizer *)

Section Normalizer.

(** [populateCommonDb] is imported from [../common/populateCommonDb.js]
    and [commitType] from [./gitGraphTypes.js]; both are parameters.
    The common set-up is taken to make calls of its own kind
    ([CommonCall], none of the six methods of [db.Call]) and to return
    normally; [commitType] is an ordinary object given by its own
    properties. *)
Variable CommonCall : Type.
Variable populateCommonDb : Ast.GitGraph -> list CommonCall.
Variable commitType : gmap string Z.

Inductive Event : Type :=
| Common (c : CommonCall)
| Sink (c : db.Call)
| LogError (msg : string).

(** What a run did, in order, and how it ended. *)
Definition Run : Type := list Event * Js.Completion.

Definition emit (e : Event) : Run := ([e], Js.Normal).

Definition throw (e : Js.Exception) : Run := ([], Js.Throw e).

(** [r1; r2]: the second part runs only if the first completed. *)
Definition seq (r1 r2 : Run) : Run :=
  match r1 with
  | (t1, Js.Normal) => let '(t2, c) := r2 in (t1 ++ t2, c)
  | (t1, Js.Throw e) => (t1, Js.Throw e)
  end.

(** [for (const x of xs) body(x)] *)
Fixpoint for_of {A : Type} (xs : list A) (body : A -> Run) : Run :=
  match xs with
  | [] => ([], Js.Normal)
  | x :: rest => seq (body x) (for_of rest body)
  end.

(** [[
      const id = commit.id;
      const message = commit.message ?? '';
      const type = commit.type !== undefined
        ? commitType[commit.type] : commitType.NORMAL;
      const tags = commit.tags ?? undefined;
      return [message, id, type, tags];
    ]] *)
Definition parseCommit (commit : Ast.Statement)
  : string * option string * Js.Value Z * option (list string) :=
  let id := Ast.id commit in
  let message := default "" (Ast.message commit) in
  let type :=
    match Ast.type commit with
    | Some t => Js.get commitType t
    | None => Js.get commitType "NORMAL"
    end in
  let tags := Ast.tags commit in
  (message, id, type, tags).

(** [[
      const name = branch.name;
      const order = branch.order ?? 0;
      return [name, order];
    ]] *)
Definition parseBranch (branch : Ast.Statement) : option string * Z :=
  let name := Ast.name branch in
  let order := default 0 (Ast.order branch) in
  (name, order).

(** [[
      const branch = merge.branch;
      const id = merge.id ?? '';
      const type = merge.type !== undefined
        ? commitType[merge.type] : undefined;
      const tags = merge.tags ?? undefined;
      return [branch, id, type, tags];
    ]] *)
Definition parseMerge (merge : Ast.Statement)
  : option string * string * Js.Value Z * option (list string) :=
  let branch := Ast.branch merge in
  let id := default "" (Ast.id merge) in
  let type :=
    match Ast.type merge with
    | Some t => Js.get commitType t
    | None => Js.undefined
    end in
  let tags := Ast.tags merge in
  (branch, id, type, tags).

Definition parseCheckout (checkout : Ast.Statement) : option string :=
  let branch := Ast.branch checkout in
  branch.

(** [[
      const id = cherryPicking.id;
      const tags = cherryPicking.tags?.length === 0
        ? undefined : cherryPicking.tags;
      const parent = cherryPicking.parent;
      return [id, '', tags, parent];
    ]] *)
Definition parseCherryPicking (cherryPicking : Ast.Statement)
  : option string * string * option (list string) * option string :=
  let id := Ast.id cherryPicking in
  let tags :=
    match Ast.tags cherryPicking with
    | Some [] => None
    | other => other
    end in
  let parent := Ast.parent cherryPicking in
  (id, "", tags, parent).

(** The table built at the head of [parseStatement]: each entry spreads
    the adapter's tuple into one call of [db]. *)
Definition parsers : gmap string (Ast.Statement -> Run) :=
  <[ "Commit" := fun stmt =>
       let '(message, id, type, tags) := parseCommit stmt in
       emit (Sink (db.commit message id type tags)) ]>
  (<[ "Branch" := fun stmt =>
       let '(name, order) := parseBranch stmt in
       emit (Sink (db.branch name order)) ]>
  (<[ "Merge" := fun stmt =>
       let '(branch, id, type, tags) := parseMerge stmt in
       emit (Sink (db.merge branch id type tags)) ]>
  (<[ "Checkout" := fun stmt =>
       emit (Sink (db.checkout (parseCheckout stmt))) ]>
  (<[ "CherryPicking" := fun stmt =>
       let '(id, arg2, tags, parent) := parseCherryPicking stmt in
       emit (Sink (db.cherryPick id arg2 tags parent)) ]>
   ∅)))).

(** [parser(statement)] for what the table read gave. *)
Definition call (parser : Js.Value (Ast.Statement -> Run))
    (statement : Ast.Statement) : Run :=
  match parser with
  | Js.own f => f statement
  | Js.inherited b => ([], Js.call_builtin b)
  | Js.undefined => throw Js.TypeError
  end.

(** [[
      const parser = parsers[statement.$type];
      if (parser) { parser(statement); }
      else { log.error(`Unknown statement type: ${statement.$type}`); }
    ]] *)
Definition parseStatement (statement : Ast.Statement) : Run :=
  let parser := Js.get parsers (Ast.dollar_type statement) in
  if Js.truthy parser then call parser statement
  else emit (LogError ("Unknown statement type: "
                       +:+ Ast.dollar_type statement)).

(** [[
      populateCommonDb(ast, db);
      if (ast.dir) { db.setDirection(ast.dir); }
      for (const statement of ast.statements) {
        parseStatement(statement, db);
      }
    ]] *)
Definition populate (ast : Ast.GitGraph) : Run :=
  seq (map Common (populateCommonDb ast), Js.Normal)
 (seq (match Ast.dir ast with
       | Some d =>
           if Js.truthy_string d then emit (Sink (db.setDirection d))
           else ([], Js.Normal)
       | None => ([], Js.Normal)
       end)
      (for_of (Ast.statements ast) parseStatement)).

(** *** Observations on a trace *)

Definition sink_calls (t : list Event) : list db.Call :=
  omap (fun e => match e with Sink c => Some c | _ => None end) t.

Definition setDirection_calls (t : list Event) : list string :=
  omap (fun e => match e with
                 | Sink (db.setDirection d) => Some d
                 | _ => None
                 end) t.

Definition log_errors (t : list Event) : list string :=
  omap (fun e => match e with LogError m => Some m | _ => None end) t.

(** The call the table makes for a statement, told by cases on the tag:
    one call for each of the five tags, none for any other tag. *)
Definition expected_call (s : Ast.Statement) : option db.Call :=
  let tag := Ast.dollar_type s in
  if decide (tag = "Commit") then
    let '(message, id, type, tags) := parseCommit s in
    Some (db.commit message id type tags)
  else if decide (tag = "Branch") then
    let '(name, order) := parseBranch s in Some (db.branch name order)
  else if decide (tag = "Merge") then
    let '(branch, id, type, tags) := parseMerge s in
    Some (db.merge branch id type tags)
  else if decide (tag = "Checkout") then
    Some (db.checkout (parseCheckout s))
  else if decide (tag = "CherryPicking") then
    let '(id, arg2, tags, parent) := parseCherryPicking s in
    Some (db.cherryPick id arg2 tags parent)
  else None.

(** The message logged for a statement, told by cases on the tag: one
    for each statement with none of the five tags. *)
Definition unknown_statement (s : Ast.Statement) : option string :=
  match expected_call s with
  | Some _ => None
  | None => Some ("Unknown statement type: " +:+ Ast.dollar_type s)
  end.

(** The message [parseStatement] logs for a statement, told by cases on
    the tag: one for each statement whose tag is neither a key of the
    table nor the name of a member of [Object.prototype]. *)
Definition logged (s : Ast.Statement) : option string :=
  match expected_call s with
  | Some _ => None
  | None =>
      if bool_decide (Ast.dollar_type s ∈ aborting_tags ++ silent_tags)
      then None
      else Some ("Unknown statement type: " +:+ Ast.dollar_type s)
  end.

(** What one statement adds to the trace, told by cases on the tag: its
    call, or its message, or nothing. *)
Definition effect (s : Ast.Statement) : list Event :=
  match expected_call s with
  | Some c => [Sink c]
  | None =>
      match logged s with
      | Some m => [LogError m]
      | None => []
      end
  end.

(** *** The run against a database *)

(** The same code once more, now run against a database that has a state
    of its own and gives an answer to every call: [respond c d] is the
    state after the call [c] in the state [d], and the value the method
    returns.  The common set-up acts on the state of the database.  The
    world holds, next to the database, the record of the calls of the six
    methods and of the messages handed to [log.error]. *)
Section Database.

Variable DB : Type.
Variable Answer : Type.
Variable respond : db.Call -> DB -> DB * Answer.
Variable commonSetup : Ast.GitGraph -> DB -> DB.

Record World : Type := {
  database : DB;
  invocations : list db.Call;
  messages : list string
}.

(** [db.m(...args)]: the database moves on, the call is recorded, and
    the value returned is handed back. *)
Definition invoke (c : db.Call) (w : World) : World * Answer :=
  ({| database := (respond c (database w)).1;
      invocations := invocations w ++ [c];
      messages := messages w |},
   (respond c (database w)).2).

(** [log.error(m)] *)
Definition log_error (m : string) (w : World) : World :=
  {| database := database w;
     invocations := invocations w;
     messages := messages w ++ [m] |}.

(** The table of [parseStatement]: each arrow function returns what the
    method of the database returned. *)
Definition parsers_on : gmap string (Ast.Statement -> World -> World * Answer) :=
  <[ "Commit" := fun stmt =>
       let '(message, id, type, tags) := parseCommit stmt in
       invoke (db.commit message id type tags) ]>
  (<[ "Branch" := fun stmt =>
       let '(name, order) := parseBranch stmt in
       invoke (db.branch name order) ]>
  (<[ "Merge" := fun stmt =>
       let '(branch, id, type, tags) := parseMerge stmt in
       invoke (db.merge branch id type tags) ]>
  (<[ "Checkout" := fun stmt =>
       invoke (db.checkout (parseCheckout stmt)) ]>
  (<[ "CherryPicking" := fun stmt =>
       let '(id, arg2, tags, parent) := parseCherryPicking stmt in
       invoke (db.cherryPick id arg2 tags parent) ]>
   ∅)))).

(** [parser(statement);] as a statement: the value returned is dropped. *)
Definition call_on (parser : Js.Value (Ast.Statement -> World -> World * Answer))
    (statement : Ast.Statement) (w : World) : World * Js.Completion :=
  match parser with
  | Js.own f => ((f statement w).1, Js.Normal)
  | Js.inherited b => (w, Js.call_builtin b)
  | Js.undefined => (w, Js.Throw Js.TypeError)
  end.

Definition parseStatement_on (statement : Ast.Statement) (w : World)
  : World * Js.Completion :=
  let parser := Js.get parsers_on (Ast.dollar_type statement) in
  if Js.truthy parser then call_on parser statement w
  else (log_error ("Unknown statement type: "
                   +:+ Ast.dollar_type statement) w,
        Js.Normal).

Fixpoint for_of_on (xs : list Ast.Statement)
    (body : Ast.Statement -> World -> World * Js.Completion) (w : World)
  : World * Js.Completion :=
  match xs with
  | [] => (w, Js.Normal)
  | x :: rest =>
      match body x w with
      | (w', Js.Normal) => for_of_on rest body w'
      | (w', Js.Throw e) => (w', Js.Throw e)
      end
  end.

Definition populate_on (ast : Ast.GitGraph) (w : World)
  : World * Js.Completion :=
  let w1 := {| database := commonSetup ast (database w);
               invocations := invocations w;
               messages := messages w |} in
  let w2 := match Ast.dir ast with
            | Some d =>
                if Js.truthy_string d
                then (invoke (db.setDirection d) w1).1
                else w1
            | None => w1
            end in
  for_of_on (Ast.statements ast) parseStatement_on w2.

(** The world before the run: nothing recorded yet. *)
Definition fresh (d : DB) : World :=
  {| database := d; invocations := []; messages := [] |}.

End Database.

Arguments database {DB} w.
Arguments invocations {DB} w.
Arguments messages {DB} w.
Arguments invoke {DB Answer} respond c w.
Arguments log_error {DB} m w.
Arguments parsers_on {DB Answer} respond.
Arguments call_on {DB Answer} parser statement w.
Arguments parseStatement_on {DB Answer} respond statement w.
Arguments for_of_on {DB} xs body w.
Arguments populate_on {DB Answer} respond commonSetup ast w.
Arguments fresh {DB} d.

(** *** The adapters, tag by tag *)

Lemma parseStatement_recognized (s : Ast.Statement) (c : db.Call) :
  expected_call s = Some c -> parseStatement s = emit (Sink c).
Proof.
  unfold expected_call, parseStatement.
  repeat case_decide; intros Hc; try discriminate Hc;
    match goal with H : Ast.dollar_type s = _ |- _ => rewrite H end;
    injection Hc as <-; reflexivity.
Qed.

Lemma parsers_lookup_None (tag : string) :
  tag <> "Commit" -> tag <> "Branch" -> tag <> "Merge" ->
  tag <> "Checkout" -> tag <> "CherryPicking" ->
  parsers !! tag = None.
Proof.
  intros. unfold parsers.
  rewrite !lookup_insert_ne by congruence. apply lookup_empty.
Qed.

Lemma expected_call_None (s : Ast.Statement) :
  expected_call s = None -> parsers !! Ast.dollar_type s = None.
Proof.
  unfold expected_call.
  repeat case_decide; intros Hc; try discriminate Hc.
  by apply parsers_lookup_None.
Qed.

Lemma parseStatement_unrecognized (s : Ast.Statement) :
  expected_call s = None ->
  parseStatement s =
    match Js.Object_prototype !! Ast.dollar_type s with
    | Some b => ([], Js.call_builtin b)
    | None => emit (LogError ("Unknown statement type: "
                              +:+ Ast.dollar_type s))
    end.
Proof.
  intros Hnone. apply expected_call_None in Hnone.
  unfold parseStatement, Js.get. rewrite Hnone.
  by destruct (Js.Object_prototype !! Ast.dollar_type s).
Qed.

Lemma expected_call_not_setDirection (s : Ast.Statement) (d : string) :
  expected_call s <> Some (db.setDirection d).
Proof.
  unfold expected_call. repeat case_decide; discriminate.
Qed.

(** *** Sequencing *)

Lemma seq_trace (r1 r2 : Run) :
  (seq r1 r2).1 =
    match r1.2 with
    | Js.Normal => r1.1 ++ r2.1
    | Js.Throw _ => r1.1
    end.
Proof. by destruct r1 as [t1 [|e]], r2 as [t2 c]. Qed.

Lemma seq_completion (r1 r2 : Run) :
  (seq r1 r2).2 =
    match r1.2 with
    | Js.Normal => r2.2
    | Js.Throw e => Js.Throw e
    end.
Proof. by destruct r1 as [t1 [|e]], r2 as [t2 c]. Qed.

Lemma parseStatement_setDirection_calls (s : Ast.Statement) :
  setDirection_calls (parseStatement s).1 = [].
Proof.
  destruct (expected_call s) as [c|] eqn:Hc.
  - rewrite (parseStatement_recognized s c Hc).
    destruct c; try reflexivity.
    by apply expected_call_not_setDirection in Hc.
  - rewrite (parseStatement_unrecognized s Hc).
    by destruct (Js.Object_prototype !! Ast.dollar_type s).
Qed.

Lemma for_of_setDirection_calls (l : list Ast.Statement) :
  setDirection_calls (for_of l parseStatement).1 = [].
Proof.
  induction l as [|s l IH]; [reflexivity|].
  cbn [for_of]. rewrite seq_trace.
  destruct (parseStatement s).2.
  - unfold setDirection_calls in *. rewrite omap_app.
    fold (setDirection_calls (parseStatement s).1).
    by rewrite parseStatement_setDirection_calls, IH.
  - apply parseStatement_setDirection_calls.
Qed.

Lemma common_setDirection_calls (cs : list CommonCall) :
  setDirection_calls (map Common cs) = [].
Proof. induction cs as [|c cs IH]; [reflexivity | exact IH]. Qed.

(** Off the names of [Object.prototype] the loop runs to its end; the
    calls of the statements are those of [expected_call], one for each
    statement with one of the five tags, and the messages logged are
    those of [unknown_statement], one for each other statement, both in
    the order of the statements. *)
Lemma for_of_parseStatement (l : list Ast.Statement) :
  Forall (fun s => Js.Object_prototype !! Ast.dollar_type s = None) l ->
  (for_of l parseStatement).2 = Js.Normal
  /\ sink_calls (for_of l parseStatement).1 = omap expected_call l
  /\ log_errors (for_of l parseStatement).1 = omap unknown_statement l.
Proof.
  induction 1 as [|s l Hs _ (IHc & IHt & IHl)]; [done|].
  change (omap expected_call (s :: l))
    with (match expected_call s with
          | Some c => c :: omap expected_call l
          | None => omap expected_call l
          end).
  change (omap unknown_statement (s :: l))
    with (match unknown_statement s with
          | Some c => c :: omap unknown_statement l
          | None => omap unknown_statement l
          end).
  unfold unknown_statement at 1.
  cbn [for_of]. rewrite seq_trace, seq_completion.
  destruct (expected_call s) as [c|] eqn:Hc.
  - rewrite (parseStatement_recognized s c Hc).
    cbn [emit fst snd app]. split; [exact IHc|]. split; [|exact IHl].
    change (c :: sink_calls (for_of l parseStatement).1
            = c :: omap expected_call l).
    by rewrite IHt.
  - rewrite (parseStatement_unrecognized s Hc), Hs.
    cbn [emit fst snd app]. split; [exact IHc|]. split; [exact IHt|].
    change (("Unknown statement type: " +:+ Ast.dollar_type s)
              :: log_errors (for_of l parseStatement).1
            = ("Unknown statement type: " +:+ Ast.dollar_type s)
                :: omap unknown_statement l).
    by rewrite IHl.
Qed.

Lemma common_sink_calls (cs : list CommonCall) :
  sink_calls (map Common cs) = [].
Proof. induction cs as [|c cs IH]; [reflexivity | exact IH]. Qed.

Lemma common_log_errors (cs : list CommonCall) :
  log_errors (map Common cs) = [].
Proof. induction cs as [|c cs IH]; [reflexivity | exact IH]. Qed.

(** X1.  The same for the whole of [populate]: on a tree none of whose tags
    names a member of [Object.prototype] no exception escapes, every
    statement with one of the five tags gets its one call, in order and
    after the call of setDirection if there is one, and every other
    statement is logged and passed over. *)
Lemma populate_off_prototype (ast : Ast.GitGraph) :
  Forall (fun s => Js.Object_prototype !! Ast.dollar_type s = None)
    (Ast.statements ast) ->
  (populate ast).2 = Js.Normal
  /\ sink_calls (populate ast).1 =
       match Ast.dir ast with
       | Some d => if Js.truthy_string d then [db.setDirection d] else []
       | None => []
       end ++ omap expected_call (Ast.statements ast)
  /\ log_errors (populate ast).1 = omap unknown_statement (Ast.statements ast).
Proof.
  intros Hoff. destruct (for_of_parseStatement _ Hoff) as (Hc & Ht & Hl).
  unfold populate. rewrite !seq_trace, !seq_completion. cbn [fst snd].
  unfold sink_calls at 1, log_errors at 1. rewrite !omap_app.
  fold (sink_calls (map Common (populateCommonDb ast))).
  fold (log_errors (map Common (populateCommonDb ast))).
  rewrite common_sink_calls, common_log_errors. cbn [app].
  destruct (Ast.dir ast) as [[|a d]|];
    cbn [Js.truthy_string emit fst snd]; rewrite ?omap_app;
    fold (sink_calls (for_of (Ast.statements ast) parseStatement).1);
    fold (log_errors (for_of (Ast.statements ast) parseStatement).1);
    rewrite Ht, Hl; done.
Qed.

Lemma parseStatement_Commit (s : Ast.Statement) :
  Ast.dollar_type s = "Commit" ->
  parseStatement s =
    emit (Sink (db.commit (default "" (Ast.message s)) (Ast.id s)
                  (match Ast.type s with
                   | Some t => Js.get commitType t
                   | None => Js.get commitType "NORMAL"
                   end)
                  (Ast.tags s))).
Proof.
  intros Htag. apply parseStatement_recognized.
  unfold expected_call. rewrite Htag. reflexivity.
Qed.

Lemma parseStatement_Branch (s : Ast.Statement) :
  Ast.dollar_type s = "Branch" ->
  parseStatement s =
    emit (Sink (db.branch (Ast.name s) (default 0 (Ast.order s)))).
Proof.
  intros Htag. apply parseStatement_recognized.
  unfold expected_call. rewrite Htag. reflexivity.
Qed.

Lemma parseStatement_Merge (s : Ast.Statement) :
  Ast.dollar_type s = "Merge" ->
  parseStatement s =
    emit (Sink (db.merge (Ast.branch s) (default "" (Ast.id s))
                  (match Ast.type s with
                   | Some t => Js.get commitType t
                   | None => Js.undefined
                   end)
                  (Ast.tags s))).
Proof.
  intros Htag. apply parseStatement_recognized.
  unfold expected_call. rewrite Htag. reflexivity.
Qed.

Lemma parseStatement_Checkout (s : Ast.Statement) :
  Ast.dollar_type s = "Checkout" ->
  parseStatement s = emit (Sink (db.checkout (Ast.branch s))).
Proof.
  intros Htag. apply parseStatement_recognized.
  unfold expected_call. rewrite Htag. reflexivity.
Qed.

Lemma parseStatement_CherryPicking (s : Ast.Statement) :
  Ast.dollar_type s = "CherryPicking" ->
  parseStatement s =
    emit (Sink (db.cherryPick (Ast.id s) ""
                  (match Ast.tags s with
                   | Some [] => None
                   | other => other
                   end)
                  (Ast.parent s))).
Proof.
  intros Htag. apply parseStatement_recognized.
  unfold expected_call. rewrite Htag. reflexivity.
Qed.

Lemma get_own {A : Type} (o : gmap string A) (k : string) (a : A) :
  o !! k = Some a -> Js.get o k = Js.own a.
Proof. intros H. unfold Js.get. by rewrite H. Qed.

Lemma get_not_own {A : Type} (o : gmap string A) (k : string) (a : A) :
  o !! k = None -> Js.get o k <> Js.own a.
Proof.
  intros H. unfold Js.get. rewrite H.
  by destruct (Js.Object_prototype !! k).
Qed.

Lemma get_undefined {A : Type} (o : gmap string A) (k : string) :
  o !! k = None -> Js.Object_prototype !! k = None ->
  Js.get o k = Js.undefined.
Proof. intros H1 H2. unfold Js.get. by rewrite H1, H2. Qed.

(** *** The claims *)

(** C1.  On the tree of the in-source test (five statements, no
    direction), with 0 the code of NORMAL, [populate] makes, after the
    common set-up, exactly the calls commit("test","1",0,[tag1,tag2]),
    branch("newBranch",1), merge("newBranch","1",0,[tag1,tag2]),
    checkout("newBranch") and cherryPick("1","",[tag1,tag2],"2"), in
    this order, and returns. *)
Theorem populate_gitGraphAst :
  commitType !! "NORMAL" = Some 0 ->
  populate gitGraphAst =
    (map Common (populateCommonDb gitGraphAst)
     ++ map Sink
          [ db.commit "test" (Some "1") (Js.own 0) (Some ["tag1"; "tag2"]);
            db.branch (Some "newBranch") 1;
            db.merge (Some "newBranch") "1" (Js.own 0)
              (Some ["tag1"; "tag2"]);
            db.checkout (Some "newBranch");
            db.cherryPick (Some "1") "" (Some ["tag1"; "tag2"])
              (Some "2") ],
     Js.Normal).
Proof.
  intros HN. unfold populate, gitGraphAst at 2 3.
  cbn [Ast.dir Ast.statements for_of].
  rewrite (parseStatement_Commit commit1 eq_refl),
    (parseStatement_Branch branch1 eq_refl),
    (parseStatement_Merge merge1 eq_refl),
    (parseStatement_Checkout checkout1 eq_refl),
    (parseStatement_CherryPicking cherryPick1 eq_refl).
  cbn [commit1 merge1 Ast.type]. rewrite (get_own _ _ _ HN).
  reflexivity.
Qed.

(** C2.  One call for each statement with one of the five tags, in
    order, does not hold of every tree: a statement tagged [__proto__]
    makes the table read return an object, the call of it throws, and
    no statement after it is looked at, whatever its tag. *)
Theorem populate_stops_at_proto (rest : list Ast.Statement) :
  let ast := {| Ast.dir := None;
                Ast.statements := Ast.bare "__proto__" :: rest |} in
  sink_calls (populate ast).1 = []
  /\ (populate ast).2 = Js.Throw Js.TypeError.
Proof.
  cbn zeta. unfold populate. cbn [Ast.dir Ast.statements for_of].
  replace (parseStatement (Ast.bare "__proto__"))
    with (([], Js.Throw Js.TypeError) : Run) by reflexivity.
  rewrite !seq_trace, !seq_completion. cbn [fst snd].
  split; [|reflexivity].
  rewrite !app_nil_r. generalize (populateCommonDb
    {| Ast.dir := None; Ast.statements := Ast.bare "__proto__" :: rest |}).
  intros cs. induction cs as [|c cs IH]; [reflexivity | exact IH].
Qed.

(** C3.  A tag that names a member of [Object.prototype] is not one of
    the five, yet it is not logged: tagged [__proto__] the statement
    makes [parseStatement] throw, tagged [constructor] it is passed over
    in silence; and in a tree the exception leaves [populate], the valid
    statement after it getting no call. *)
Theorem parseStatement_inherited_tag :
  parseStatement (Ast.bare "__proto__") = ([], Js.Throw Js.TypeError)
  /\ parseStatement (Ast.bare "constructor") = ([], Js.Normal)
  /\ populate {| Ast.dir := None;
                 Ast.statements :=
                   [checkout1; Ast.bare "__proto__"; branch1] |}
     = (map Common
          (populateCommonDb
             {| Ast.dir := None;
                Ast.statements :=
                  [checkout1; Ast.bare "__proto__"; branch1] |})
        ++ [Sink (db.checkout (Some "newBranch"))],
        Js.Throw Js.TypeError).
Proof.
  split; [reflexivity|]. split; [reflexivity|].
  unfold populate. cbn [Ast.dir Ast.statements for_of].
  rewrite (parseStatement_Checkout checkout1 eq_refl),
    (parseStatement_Branch branch1 eq_refl).
  replace (parseStatement (Ast.bare "__proto__"))
    with (([], Js.Throw Js.TypeError) : Run) by reflexivity.
  reflexivity.
Qed.

(** C4.  A tree whose direction is absent gets no call of setDirection,
    and a tree whose direction is present gets exactly one, with that
    direction.  A direction that is present is one the grammar gave, a
    keyword and so not the empty string; the guard [if (ast.dir)] would
    take the empty string for an absent direction. *)
Theorem populate_setDirection (ast : Ast.GitGraph) :
  (Ast.dir ast = None \/ Ast.dir ast = Some "" ->
   setDirection_calls (populate ast).1 = [])
  /\ (forall d : string,
        Ast.dir ast = Some d -> d <> "" ->
        setDirection_calls (populate ast).1 = [d]).
Proof.
  assert (Hsplit : setDirection_calls (populate ast).1 =
            match Ast.dir ast with
            | Some d => if Js.truthy_string d then [d] else []
            | None => []
            end).
  { unfold populate. rewrite !seq_trace. cbn [fst snd].
    unfold setDirection_calls at 1. rewrite omap_app.
    fold (setDirection_calls (map Common (populateCommonDb ast))).
    rewrite common_setDirection_calls. cbn [app].
    destruct (Ast.dir ast) as [[|a d]|]; cbn [Js.truthy_string emit fst snd].
    - apply for_of_setDirection_calls.
    - rewrite omap_app.
      fold (setDirection_calls (for_of (Ast.statements ast) parseStatement).1).
      by rewrite for_of_setDirection_calls.
    - apply for_of_setDirection_calls. }
  split.
  - intros [H|H]; rewrite Hsplit, H; reflexivity.
  - intros d H Hd. rewrite Hsplit, H. by destruct d.
Qed.

(** C5.  A Commit statement without a [type] hands the code of NORMAL
    to commit; a Merge statement without a [type] hands [undefined] to
    merge; the two are different values. *)
Theorem default_type_Commit_Merge (c m : Ast.Statement) (normal : Z) :
  commitType !! "NORMAL" = Some normal ->
  Ast.dollar_type c = "Commit" -> Ast.type c = None ->
  Ast.dollar_type m = "Merge" -> Ast.type m = None ->
  parseStatement c =
    emit (Sink (db.commit (default "" (Ast.message c)) (Ast.id c)
                  (Js.own normal) (Ast.tags c)))
  /\ parseStatement m =
    emit (Sink (db.merge (Ast.branch m) (default "" (Ast.id m))
                  Js.undefined (Ast.tags m)))
  /\ (parseCommit c).1.2 <> (parseMerge m).1.2.
Proof.
  intros HN Hc Htc Hm Htm.
  rewrite (parseStatement_Commit c Hc), (parseStatement_Merge m Hm).
  unfold parseCommit, parseMerge. cbn [fst snd].
  rewrite Htc, Htm, (get_own _ _ _ HN). done.
Qed.

(** C6.  The second argument of cherryPick is the empty string for
    every CherryPicking statement, and an empty list of tags reaches
    cherryPick as [undefined]. *)
Theorem cherryPick_arguments (s : Ast.Statement) :
  Ast.dollar_type s = "CherryPicking" ->
  (exists tags : option (list string),
      parseStatement s =
        emit (Sink (db.cherryPick (Ast.id s) "" tags (Ast.parent s))))
  /\ (Ast.tags s = Some [] ->
      parseStatement s =
        emit (Sink (db.cherryPick (Ast.id s) "" None (Ast.parent s)))).
Proof.
  intros Htag. rewrite (parseStatement_CherryPicking s Htag).
  split; [by eexists|]. by intros ->.
Qed.

(** C7.  A Branch statement without an [order] hands 0 to branch, next
    to its name as it is; a Merge statement without an [id] hands the
    empty string to merge. *)
Theorem default_order_and_id (b m : Ast.Statement) :
  Ast.dollar_type b = "Branch" -> Ast.order b = None ->
  Ast.dollar_type m = "Merge" -> Ast.id m = None ->
  parseStatement b = emit (Sink (db.branch (Ast.name b) 0))
  /\ exists type : Js.Value Z,
      parseStatement m =
        emit (Sink (db.merge (Ast.branch m) "" type (Ast.tags m))).
Proof.
  intros Hb Hob Hm Him.
  rewrite (parseStatement_Branch b Hb), (parseStatement_Merge m Hm).
  rewrite Hob, Him. split; [reflexivity | by eexists].
Qed.

(** C8.  An empty list of tags reaches commit and merge as the empty
    list; only cherryPick gets [undefined] for it. *)
Theorem empty_tags_kept (c m p : Ast.Statement) :
  Ast.dollar_type c = "Commit" -> Ast.tags c = Some [] ->
  Ast.dollar_type m = "Merge" -> Ast.tags m = Some [] ->
  Ast.dollar_type p = "CherryPicking" -> Ast.tags p = Some [] ->
  (exists type : Js.Value Z,
      parseStatement c =
        emit (Sink (db.commit (default "" (Ast.message c)) (Ast.id c)
                      type (Some []))))
  /\ (exists type : Js.Value Z,
      parseStatement m =
        emit (Sink (db.merge (Ast.branch m) (default "" (Ast.id m))
                      type (Some []))))
  /\ parseStatement p =
       emit (Sink (db.cherryPick (Ast.id p) "" None (Ast.parent p))).
Proof.
  intros Hc Htc Hm Htm Hp Htp.
  rewrite (parseStatement_Commit c Hc), (parseStatement_Merge m Hm),
    (parseStatement_CherryPicking p Hp), Htc, Htm, Htp.
  split; [by eexists|]. split; [by eexists | reflexivity].
Qed.

(** C9, amended.  For a Commit statement whose [type] is present and is
    not a key of the table, commit gets what the read [commitType[type]]
    gives: never the code of NORMAL, and [undefined] whenever the tag is
    not the name of a member of [Object.prototype] either. *)
Theorem unknown_type_no_fallback (s : Ast.Statement) (t : string)
    (normal : Z) :
  commitType !! "NORMAL" = Some normal ->
  Ast.dollar_type s = "Commit" -> Ast.type s = Some t ->
  commitType !! t = None ->
  parseStatement s =
    emit (Sink (db.commit (default "" (Ast.message s)) (Ast.id s)
                  (Js.get commitType t) (Ast.tags s)))
  /\ Js.get commitType t <> Js.get commitType "NORMAL"
  /\ (Js.Object_prototype !! t = None ->
      Js.get commitType t = Js.undefined).
Proof.
  intros HN Htag Ht Hkey.
  rewrite (parseStatement_Commit s Htag), Ht, (get_own _ _ _ HN).
  split; [reflexivity|]. split.
  - by apply get_not_own.
  - by apply get_undefined.
Qed.

(** *** The whole of [parseStatement] and of the loop *)

Lemma omap_cons {A B : Type} (f : A -> option B) (x : A) (l : list A) :
  omap f (x :: l) =
    match f x with
    | Some y => y :: omap f l
    | None => omap f l
    end.
Proof. reflexivity. Qed.

Lemma Object_prototype_cases (k : string) :
  match Js.Object_prototype !! k with
  | Some b =>
      match Js.call_builtin b with
      | Js.Normal => (k ∈ silent_tags) /\ (k ∉ aborting_tags)
      | Js.Throw e => e = Js.TypeError /\ (k ∈ aborting_tags)
      end
  | None => (k ∉ aborting_tags) /\ (k ∉ silent_tags)
  end.
Proof.
  unfold Js.Object_prototype. cbn [list_to_map foldr fst snd].
  repeat (rewrite lookup_insert; case_decide;
          [subst k; cbn [Js.call_builtin]; split;
           first [reflexivity | by (apply (bool_decide_unpack _); vm_compute)]|]).
  rewrite lookup_empty. unfold aborting_tags, silent_tags.
  rewrite !not_elem_of_cons. repeat split; try congruence;
    apply not_elem_of_nil.
Qed.

Lemma expected_call_Some_tag (s : Ast.Statement) (c : db.Call) :
  expected_call s = Some c -> Ast.dollar_type s ∈ recognized_tags.
Proof.
  unfold expected_call, recognized_tags.
  repeat case_decide; intros Hc; try discriminate Hc;
    match goal with H : Ast.dollar_type s = _ |- _ => rewrite H end;
    by (apply (bool_decide_unpack _); vm_compute).
Qed.

Lemma expected_call_None_tag (s : Ast.Statement) :
  expected_call s = None -> Ast.dollar_type s ∉ recognized_tags.
Proof.
  unfold expected_call, recognized_tags.
  repeat case_decide; intros Hc; try discriminate Hc.
  rewrite !not_elem_of_cons. repeat split; try assumption.
  apply not_elem_of_nil.
Qed.

Lemma recognized_not_aborts (s : Ast.Statement) (c : db.Call) :
  expected_call s = Some c -> aborts s = false.
Proof.
  intros Hc. apply expected_call_Some_tag in Hc.
  apply bool_decide_eq_false_2. revert Hc.
  generalize (Ast.dollar_type s). intros k Hk. unfold recognized_tags in Hk.
  repeat (apply elem_of_cons in Hk as [->|Hk];
          [by (apply (bool_decide_unpack _); vm_compute)|]).
  by apply elem_of_nil in Hk.
Qed.

(** [parseStatement] on every statement: the call of the adapter for one
    of the five tags, an exception for an aborting tag, nothing at all for
    a silent one, and the message for any other tag. *)
Lemma parseStatement_spec (s : Ast.Statement) :
  parseStatement s =
    match expected_call s with
    | Some c => emit (Sink c)
    | None =>
        if aborts s then ([], Js.Throw Js.TypeError)
        else match logged s with
             | Some m => emit (LogError m)
             | None => ([], Js.Normal)
             end
    end.
Proof.
  unfold logged.
  destruct (expected_call s) as [c|] eqn:Hc.
  - by apply parseStatement_recognized.
  - rewrite (parseStatement_unrecognized s Hc). unfold aborts.
    pose proof (Object_prototype_cases (Ast.dollar_type s)) as Hp.
    destruct (Js.Object_prototype !! Ast.dollar_type s) as [b|].
    + destruct (Js.call_builtin b) as [|e].
      * destruct Hp as [Hs Ha].
        rewrite (bool_decide_eq_false_2 _ Ha).
        rewrite bool_decide_eq_true_2; [done|].
        apply elem_of_app. by right.
      * destruct Hp as [-> Ha]. by rewrite (bool_decide_eq_true_2 _ Ha).
    + destruct Hp as [Ha Hs].
      rewrite (bool_decide_eq_false_2 _ Ha).
      rewrite bool_decide_eq_false_2; [done|].
      rewrite elem_of_app. tauto.
Qed.

Lemma for_of_run (l : list Ast.Statement) :
  sink_calls (for_of l parseStatement).1 = omap expected_call (before_abort l)
  /\ log_errors (for_of l parseStatement).1 = omap logged (before_abort l)
  /\ (for_of l parseStatement).2 =
       if forallb (fun s => negb (aborts s)) l then Js.Normal
       else Js.Throw Js.TypeError.
Proof.
  induction l as [|s l (IHs & IHl & IHc)]; [done|].
  cbn [for_of before_abort forallb].
  rewrite seq_trace, seq_completion, parseStatement_spec.
  destruct (expected_call s) as [c|] eqn:Hc.
  - rewrite (recognized_not_aborts s c Hc). cbn [emit fst snd negb andb app].
    rewrite !omap_cons, Hc. unfold logged at 1. rewrite Hc.
    split; [|split; [exact IHl | exact IHc]].
    change (c :: sink_calls (for_of l parseStatement).1
            = c :: omap expected_call (before_abort l)).
    by rewrite IHs.
  - destruct (aborts s); cbn [fst snd negb andb]; [done|].
    rewrite !omap_cons, Hc.
    destruct (logged s) as [m|]; cbn [emit fst snd app].
    + split; [exact IHs|]. split; [|exact IHc].
      change (m :: log_errors (for_of l parseStatement).1
              = m :: omap logged (before_abort l)).
      by rewrite IHl.
    + split; [exact IHs|]. split; [exact IHl | exact IHc].
Qed.

Lemma populate_run (ast : Ast.GitGraph) :
  sink_calls (populate ast).1 =
    direction_call ast ++ omap expected_call (before_abort (Ast.statements ast))
  /\ log_errors (populate ast).1 =
       omap logged (before_abort (Ast.statements ast))
  /\ (populate ast).2 =
       if forallb (fun s => negb (aborts s)) (Ast.statements ast)
       then Js.Normal else Js.Throw Js.TypeError.
Proof.
  destruct (for_of_run (Ast.statements ast)) as (Hs & Hl & Hc).
  unfold populate, direction_call.
  rewrite !seq_trace, !seq_completion. cbn [fst snd].
  unfold sink_calls at 1, log_errors at 1. rewrite !omap_app.
  fold (sink_calls (map Common (populateCommonDb ast))).
  fold (log_errors (map Common (populateCommonDb ast))).
  rewrite common_sink_calls, common_log_errors. cbn [app].
  destruct (Ast.dir ast) as [[|a d]|];
    cbn [Js.truthy_string emit fst snd]; rewrite ?omap_app;
    fold (sink_calls (for_of (Ast.statements ast) parseStatement).1);
    fold (log_errors (for_of (Ast.statements ast) parseStatement).1);
    rewrite Hs, Hl; done.
Qed.

Lemma forallb_aborts (l : list Ast.Statement) :
  forallb (fun s => negb (aborts s)) l = true
  <-> Forall (fun s => Ast.dollar_type s ∉ aborting_tags) l.
Proof.
  induction l as [|s l IH]; cbn [forallb].
  - split; [constructor | reflexivity].
  - rewrite andb_true_iff, negb_true_iff, Forall_cons, IH.
    unfold aborts. by rewrite bool_decide_eq_false.
Qed.

Lemma before_abort_all (l : list Ast.Statement) :
  Forall (fun s => Ast.dollar_type s ∉ aborting_tags) l ->
  before_abort l = l.
Proof.
  induction 1 as [|s l Hs _ IH]; [reflexivity|].
  cbn [before_abort]. unfold aborts.
  by rewrite (bool_decide_eq_false_2 _ Hs), IH.
Qed.

Lemma before_abort_app (l1 l2 : list Ast.Statement) :
  before_abort (l1 ++ l2) =
    before_abort l1
    ++ (if forallb (fun s => negb (aborts s)) l1 then before_abort l2
        else []).
Proof.
  induction l1 as [|s l1 IH]; [reflexivity|].
  cbn [app before_abort forallb].
  destruct (aborts s); [reflexivity|].
  cbn [negb andb app]. by rewrite IH.
Qed.

Lemma before_abort_length (l : list Ast.Statement) :
  (length (before_abort l) <= length l)%nat.
Proof.
  induction l as [|s l IH]; [done|].
  cbn [before_abort]. destruct (aborts s); cbn [length]; lia.
Qed.

Lemma for_of_trace (l : list Ast.Statement) :
  (for_of l parseStatement).1 = concat (map effect (before_abort l)).
Proof.
  induction l as [|s l IH]; [reflexivity|].
  cbn [for_of before_abort]. rewrite seq_trace, parseStatement_spec.
  destruct (expected_call s) as [c|] eqn:Hc.
  - rewrite (recognized_not_aborts s c Hc). cbn [map concat emit fst snd].
    unfold effect at 1. by rewrite Hc, IH.
  - destruct (aborts s); [reflexivity|].
    cbn [map concat]. unfold effect at 1. rewrite Hc.
    destruct (logged s); cbn [emit fst snd]; by rewrite IH.
Qed.

Lemma populate_trace_eq (ast : Ast.GitGraph) :
  (populate ast).1 =
    map Common (populateCommonDb ast)
    ++ map Sink (direction_call ast)
    ++ concat (map effect (before_abort (Ast.statements ast))).
Proof.
  unfold populate, direction_call. rewrite !seq_trace. cbn [fst snd].
  rewrite for_of_trace. f_equal.
  destruct (Ast.dir ast) as [d|]; [|reflexivity].
  by destruct (Js.truthy_string d).
Qed.

(** *** Further properties of the normalizer *)

(** X3.  On every tree the trace of [populate] is made of the calls of the
    common set-up, then the call of setDirection the tree asks for, then,
    for each statement before the first aborting one and in the order of
    the statements, its one call, or its message, or nothing. *)
Theorem populate_trace (ast : Ast.GitGraph) :
  (populate ast).1 =
    map Common (populateCommonDb ast)
    ++ map Sink (direction_call ast)
    ++ concat (map effect (before_abort (Ast.statements ast))).
Proof. apply populate_trace_eq. Qed.

(** X4.  On every tree the messages logged are, in order, one for each
    statement before the first aborting one whose tag is neither one of
    the five nor the name of a member of [Object.prototype]. *)
Theorem populate_log_errors (ast : Ast.GitGraph) :
  log_errors (populate ast).1 =
    omap logged (before_abort (Ast.statements ast)).
Proof. exact (proj1 (proj2 (populate_run ast))). Qed.

(** X5.  Nothing is deduplicated or batched: on a tree without aborting
    statement the calls of the six methods made by [populate] and its
    adapters are as many as the statements with one of the five tags,
    equal or not, and one more if setDirection is called. *)
Theorem populate_call_count (ast : Ast.GitGraph) :
  Forall (fun s => Ast.dollar_type s ∉ aborting_tags) (Ast.statements ast) ->
  length (sink_calls (populate ast).1) =
    (length (direction_call ast)
     + length (filter (fun s => Ast.dollar_type s ∈ recognized_tags)
                 (Ast.statements ast)))%nat.
Proof.
  intros Hl. rewrite (proj1 (populate_run ast)), (before_abort_all _ Hl).
  rewrite length_app. f_equal. clear Hl.
  induction (Ast.statements ast) as [|s l IH]; [reflexivity|].
  rewrite filter_cons, omap_cons.
  destruct (expected_call s) as [c|] eqn:Hc.
  - rewrite decide_True by (by eapply expected_call_Some_tag).
    cbn [length]. by rewrite IH.
  - by rewrite decide_False by (by apply expected_call_None_tag).
Qed.

(** X6.  On a tree without aborting statement, the statements with other
    tags than the five are of no effect on the database: leaving them out
    gives the same calls. *)
Theorem populate_filter_recognized (ast : Ast.GitGraph) :
  Forall (fun s => Ast.dollar_type s ∉ aborting_tags) (Ast.statements ast) ->
  sink_calls
    (populate
       {| Ast.dir := Ast.dir ast;
          Ast.statements :=
            filter (fun s => Ast.dollar_type s ∈ recognized_tags)
              (Ast.statements ast) |}).1
  = sink_calls (populate ast).1.
Proof.
  intros Hl. rewrite !(proj1 (populate_run _)).
  unfold direction_call. cbn [Ast.dir Ast.statements]. f_equal.
  rewrite (before_abort_all _ Hl), before_abort_all.
  - clear Hl. induction (Ast.statements ast) as [|s l IH]; [reflexivity|].
    rewrite filter_cons, omap_cons.
    destruct (expected_call s) as [c|] eqn:Hc.
    + rewrite decide_True by (by eapply expected_call_Some_tag).
      by rewrite omap_cons, Hc, IH.
    + by rewrite decide_False by (by apply expected_call_None_tag).
  - apply Forall_forall. intros s Hs. apply list_elem_of_filter in Hs as [_ Hs].
    by apply (proj1 (Forall_forall _ _) Hl).
Qed.

(** X7.  The loop is sequential: the calls for a list of statements
    followed by another are the calls for the first, followed by the
    calls for the second if the first has no aborting statement, and by
    nothing otherwise. *)
Theorem populate_app (d : option string) (l1 l2 : list Ast.Statement) :
  sink_calls
    (populate {| Ast.dir := d; Ast.statements := l1 ++ l2 |}).1 =
    sink_calls (populate {| Ast.dir := d; Ast.statements := l1 |}).1
    ++ (if forallb (fun s => negb (aborts s)) l1
        then sink_calls
               (populate {| Ast.dir := None; Ast.statements := l2 |}).1
        else []).
Proof.
  rewrite !(proj1 (populate_run _)). unfold direction_call.
  cbn [Ast.dir Ast.statements app].
  rewrite before_abort_app, omap_app, <- app_assoc.
  by destruct (forallb _ l1).
Qed.



(** X10.  A Commit statement without a message hands the empty string to
    commit; with a message it hands the message over as it is, next to
    the [id] and the [tags] as they are read. *)
Theorem commit_message (s : Ast.Statement) :
  Ast.dollar_type s = "Commit" ->
  exists type : Js.Value Z,
    (Ast.message s = None ->
     parseStatement s =
       emit (Sink (db.commit "" (Ast.id s) type (Ast.tags s))))
    /\ (forall m : string,
          Ast.message s = Some m ->
          parseStatement s =
            emit (Sink (db.commit m (Ast.id s) type (Ast.tags s)))).
Proof.
  intros Htag. rewrite (parseStatement_Commit s Htag).
  eexists. split; [by intros ->|]. by intros m ->.
Qed.

(** X11.  cherryPick gets [undefined] for the tags exactly when the
    statement has no tags or an empty list of them; a list that is not
    empty is handed over as it is. *)
Theorem cherryPick_tags (s : Ast.Statement) :
  Ast.dollar_type s = "CherryPicking" ->
  exists tags : option (list string),
    parseStatement s =
      emit (Sink (db.cherryPick (Ast.id s) "" tags (Ast.parent s)))
    /\ (tags = None <-> Ast.tags s = None \/ Ast.tags s = Some [])
    /\ (tags <> None -> tags = Ast.tags s).
Proof.
  intros Htag. rewrite (parseStatement_CherryPicking s Htag).
  eexists. split; [reflexivity|].
  destruct (Ast.tags s) as [[|t ts]|]; split; try done.
  - split; [by right | done].
  - split; [done|]. by intros [|].
  - split; [by left | done].
Qed.

(** X12.  Commit and Merge share the table of types: with the same
    [type] present, commit and merge get the same type argument, and it
    is the code of the tag whenever the tag is a key of the table. *)
Theorem type_shared (c m : Ast.Statement) (t : string) :
  Ast.dollar_type c = "Commit" -> Ast.type c = Some t ->
  Ast.dollar_type m = "Merge" -> Ast.type m = Some t ->
  exists type : Js.Value Z,
    parseStatement c =
      emit (Sink (db.commit (default "" (Ast.message c)) (Ast.id c) type
                    (Ast.tags c)))
    /\ parseStatement m =
         emit (Sink (db.merge (Ast.branch m) (default "" (Ast.id m)) type
                       (Ast.tags m)))
    /\ (forall code : Z, commitType !! t = Some code -> type = Js.own code).
Proof.
  intros Hc Htc Hm Htm.
  rewrite (parseStatement_Commit c Hc), (parseStatement_Merge m Hm), Htc, Htm.
  eexists. split; [reflexivity|]. split; [reflexivity|].
  intros code Hcode. by apply get_own.
Qed.

(** X13.  No adapter makes up a required field: whatever call
    [parseStatement] makes, its [id], [name], [branch] and [parent]
    arguments are the fields of the statement as they are read,
    [undefined] when the field is missing; and it never calls
    setDirection. *)
Theorem required_fields_as_read (s : Ast.Statement) (c : db.Call) :
  parseStatement s = emit (Sink c) ->
  match c with
  | db.setDirection _ => False
  | db.commit _ id _ _ => id = Ast.id s
  | db.branch name _ => name = Ast.name s
  | db.merge branch _ _ _ => branch = Ast.branch s
  | db.checkout branch => branch = Ast.branch s
  | db.cherryPick id _ _ parent => id = Ast.id s /\ parent = Ast.parent s
  end.
Proof.
  rewrite parseStatement_spec.
  destruct (expected_call s) as [c'|] eqn:Hc.
  - intros [= <-]. revert Hc. unfold expected_call.
    repeat case_decide; intros [= <-]; done.
  - destruct (aborts s); [discriminate|].
    destruct (logged s); discriminate.
Qed.

(** X14.  [parseStatement] calls the database exactly for the five tags,
    compared as they are written. *)
Theorem sink_call_iff_recognized (s : Ast.Statement) :
  (exists c : db.Call, parseStatement s = emit (Sink c))
  <-> Ast.dollar_type s ∈ recognized_tags.
Proof.
  rewrite parseStatement_spec.
  destruct (expected_call s) as [c|] eqn:Hc.
  - split; [intros _; by eapply expected_call_Some_tag | by eexists].
  - split.
    + intros [c Hrun]. destruct (aborts s); [discriminate|].
      destruct (logged s); discriminate.
    + intros Hin. by apply expected_call_None_tag in Hc.
Qed.

(** X15.  [parseStatement] logs the message naming the tag exactly for
    the tags that are neither one of the five nor the name of a member
    of [Object.prototype]. *)
Theorem log_iff_unknown (s : Ast.Statement) :
  parseStatement s =
    emit (LogError ("Unknown statement type: " +:+ Ast.dollar_type s))
  <-> Ast.dollar_type s ∉ recognized_tags ++ aborting_tags ++ silent_tags.
Proof.
  rewrite parseStatement_spec. unfold logged, aborts.
  rewrite !not_elem_of_app.
  destruct (expected_call s) as [c|] eqn:Hc.
  - apply expected_call_Some_tag in Hc. split; [discriminate | tauto].
  - apply expected_call_None_tag in Hc.
    case_bool_decide as Ha; [split; [discriminate | tauto]|].
    case_bool_decide as Hs.
    + apply elem_of_app in Hs. split; [discriminate | tauto].
    + rewrite not_elem_of_app in Hs. tauto.
Qed.

(** X16.  For Commit the tag NORMAL written out and no [type] at all
    come to the same call; for Merge they do not, as soon as NORMAL is a
    key of the table. *)
Theorem explicit_NORMAL (c m : Ast.Statement) (normal : Z) :
  commitType !! "NORMAL" = Some normal ->
  Ast.dollar_type c = "Commit" -> Ast.dollar_type m = "Merge" ->
  parseStatement (with_type c (Some "NORMAL"))
    = parseStatement (with_type c None)
  /\ parseStatement (with_type m (Some "NORMAL"))
     <> parseStatement (with_type m None).
Proof.
  intros HN Hc Hm. split.
  - by rewrite (parseStatement_Commit (with_type c (Some "NORMAL")) Hc),
      (parseStatement_Commit (with_type c None) Hc).
  - rewrite (parseStatement_Merge (with_type m (Some "NORMAL")) Hm),
      (parseStatement_Merge (with_type m None) Hm).
    cbn [with_type Ast.type]. rewrite (get_own _ _ _ HN). discriminate.
Qed.

Lemma parseStatement_no_common (s : Ast.Statement) :
  Forall (fun e => forall c : CommonCall, e <> Common c) (parseStatement s).1.
Proof.
  rewrite parseStatement_spec.
  destruct (expected_call s); [by repeat constructor|].
  destruct (aborts s); [constructor|].
  destruct (logged s); by repeat constructor.
Qed.

Lemma for_of_no_common (l : list Ast.Statement) :
  Forall (fun e => forall c : CommonCall, e <> Common c)
    (for_of l parseStatement).1.
Proof.
  induction l as [|s l IH]; [constructor|].
  cbn [for_of]. rewrite seq_trace.
  destruct (parseStatement s).2.
  - apply Forall_app. split; [apply parseStatement_no_common | exact IH].
  - apply parseStatement_no_common.
Qed.

(** X17.  The common set-up comes first: the trace of [populate] begins
    with the calls of [populateCommonDb], all of them, and no call or
    message of the normalizer itself stands among them. *)
Theorem common_setup_first (ast : Ast.GitGraph) :
  take (length (populateCommonDb ast)) (populate ast).1
    = map Common (populateCommonDb ast)
  /\ Forall (fun e => forall c : CommonCall, e <> Common c)
       (drop (length (populateCommonDb ast)) (populate ast).1).
Proof.
  unfold populate. rewrite !seq_trace. cbn [fst snd].
  rewrite <- (length_map Common (populateCommonDb ast)).
  rewrite take_app_length, drop_app_length. split; [reflexivity|].
  destruct (Ast.dir ast) as [d|]; [destruct (Js.truthy_string d)|];
    cbn [emit fst snd app]; try apply for_of_no_common.
  constructor; [discriminate | apply for_of_no_common].
Qed.

(** *** The run against a database and the trace *)

Lemma sink_calls_app (t1 t2 : list Event) :
  sink_calls (t1 ++ t2) = sink_calls t1 ++ sink_calls t2.
Proof. apply omap_app. Qed.

Lemma log_errors_app (t1 t2 : list Event) :
  log_errors (t1 ++ t2) = log_errors t1 ++ log_errors t2.
Proof. apply omap_app. Qed.

Section DatabaseFacts.

Variable DB : Type.
Variable Answer : Type.
Variable respond : db.Call -> DB -> DB * Answer.
Variable commonSetup : Ast.GitGraph -> DB -> DB.

Lemma parsers_on_lookup_None (tag : string) :
  tag <> "Commit" -> tag <> "Branch" -> tag <> "Merge" ->
  tag <> "Checkout" -> tag <> "CherryPicking" ->
  parsers_on respond !! tag = None.
Proof.
  intros. unfold parsers_on.
  rewrite !lookup_insert_ne by congruence. apply lookup_empty.
Qed.

(** One statement against the database: what is recorded is what the
    trace of [parseStatement] holds, and the completion is the same. *)
Lemma parseStatement_on_trace (s : Ast.Statement) (w : World DB) :
  invocations (parseStatement_on respond s w).1 =
    invocations w ++ sink_calls (parseStatement s).1
  /\ messages (parseStatement_on respond s w).1 =
       messages w ++ log_errors (parseStatement s).1
  /\ (parseStatement_on respond s w).2 = (parseStatement s).2.
Proof.
  destruct (expected_call s) as [c|] eqn:Hc.
  - rewrite (parseStatement_recognized s c Hc).
    revert Hc. unfold expected_call, parseStatement_on.
    repeat case_decide; intros Hc; try discriminate Hc;
      match goal with H : Ast.dollar_type s = _ |- _ => rewrite H end;
      injection Hc as <-;
      (split; [reflexivity|]; split; [|reflexivity]);
      change (messages w = messages w ++ []); by rewrite app_nil_r.
  - rewrite (parseStatement_unrecognized s Hc).
    assert (parsers_on respond !! Ast.dollar_type s = None) as Hnone.
    { revert Hc. unfold expected_call.
      repeat case_decide; intros Hc; try discriminate Hc.
      by apply parsers_on_lookup_None. }
    unfold parseStatement_on, Js.get. rewrite Hnone.
    destruct (Js.Object_prototype !! Ast.dollar_type s) as [b|].
    + cbn [Js.truthy call_on fst snd].
      change (sink_calls []) with (@nil db.Call).
      change (log_errors []) with (@nil string).
      by rewrite !app_nil_r.
    + cbn [Js.truthy fst snd log_error invocations messages emit].
      change (sink_calls [LogError _]) with (@nil db.Call).
      by rewrite app_nil_r.
Qed.

Lemma for_of_on_trace (l : list Ast.Statement) (w : World DB) :
  invocations (for_of_on l (parseStatement_on respond) w).1 =
    invocations w ++ sink_calls (for_of l parseStatement).1
  /\ messages (for_of_on l (parseStatement_on respond) w).1 =
       messages w ++ log_errors (for_of l parseStatement).1
  /\ (for_of_on l (parseStatement_on respond) w).2 =
       (for_of l parseStatement).2.
Proof.
  revert w. induction l as [|s l IH]; intros w.
  - cbn [for_of_on for_of fst snd].
    change (sink_calls []) with (@nil db.Call).
    change (log_errors []) with (@nil string).
    by rewrite !app_nil_r.
  - cbn [for_of_on for_of]. rewrite seq_trace, seq_completion.
    destruct (parseStatement_on_trace s w) as (Hi & Hm & Hc).
    destruct (parseStatement_on respond s w) as [w' c'].
    cbn [fst snd] in Hi, Hm, Hc. rewrite <- Hc.
    destruct c' as [|e]; cbn [fst snd].
    + destruct (IH w') as (IHi & IHm & IHc).
      rewrite IHi, IHm, IHc, Hi, Hm, sink_calls_app, log_errors_app.
      by rewrite !app_assoc.
    + done.
Qed.

(** The whole run against the database: the calls of the six methods
    that are recorded are those of the trace of [populate], and so are
    the messages and the completion, whatever the database is, whatever
    state it is in and whatever its methods return. *)
Lemma populate_on_trace (ast : Ast.GitGraph) (w : World DB) :
  invocations (populate_on respond commonSetup ast w).1 =
    invocations w ++ sink_calls (populate ast).1
  /\ messages (populate_on respond commonSetup ast w).1 =
       messages w ++ log_errors (populate ast).1
  /\ (populate_on respond commonSetup ast w).2 = (populate ast).2.
Proof.
  unfold populate_on, populate.
  rewrite !seq_trace, !seq_completion. cbn [fst snd].
  rewrite !sink_calls_app, !log_errors_app,
    common_sink_calls, common_log_errors. cbn [app].
  match goal with
  | |- context [for_of_on _ _ ?w2] =>
      destruct (for_of_on_trace (Ast.statements ast) w2) as (-> & -> & ->)
  end.
  destruct (Ast.dir ast) as [d|]; [destruct (Js.truthy_string d)|];
    cbn [emit fst snd invoke invocations messages];
    rewrite ?sink_calls_app, ?log_errors_app;
    cbn [app]; rewrite <- ?app_assoc; done.
Qed.

End DatabaseFacts.

End Normalizer.

Arguments Common {CommonCall} c.
Arguments Sink {CommonCall} c.
Arguments LogError {CommonCall} msg.
Arguments emit {CommonCall} e.
Arguments sink_calls {CommonCall} t.
Arguments setDirection_calls {CommonCall} t.
Arguments log_errors {CommonCall} t.
Arguments database {DB} w.
Arguments invocations {DB} w.
Arguments messages {DB} w.
Arguments invoke {DB Answer} respond c w.
Arguments log_error {DB} m w.
Arguments call_on {DB Answer} parser statement w.
Arguments for_of_on {DB} xs body w.
Arguments fresh {DB} d.
Arguments parsers_on commitType {DB Answer} respond.
Arguments parseStatement_on commitType {DB Answer} respond statement w.
Arguments populate_on commitType {DB Answer} respond commonSetup ast w.

(** ** The normalizer on the concrete collaborators *)

(** The adapters and the loop with the table [commitType_table] and a
    database without common methods. *)
Local Abbreviation parseStatement_mock :=
  (parseStatement Empty_set commitType_table).

Local Abbreviation populate_mock :=
  (populate Empty_set populateCommonDb_mock commitType_table).

Lemma populate_gitGraphAst_witness :
  commitType_table !! "NORMAL" = Some 0
  /\ populate_mock gitGraphAst =
       ([ Sink (db.commit "test" (Some "1") (Js.own 0)
                  (Some ["tag1"; "tag2"]));
          Sink (db.branch (Some "newBranch") 1);
          Sink (db.merge (Some "newBranch") "1" (Js.own 0)
                  (Some ["tag1"; "tag2"]));
          Sink (db.checkout (Some "newBranch"));
          Sink (db.cherryPick (Some "1") "" (Some ["tag1"; "tag2"])
                  (Some "2")) ],
        Js.Normal).
Proof.
  split; [reflexivity|].
  apply (populate_gitGraphAst Empty_set populateCommonDb_mock
           commitType_table).
  reflexivity.
Defined.

Lemma populate_setDirection_witness :
  setDirection_calls
    (populate_mock {| Ast.dir := Some ""; Ast.statements := [commit1] |}).1
  = []
  /\ setDirection_calls
       (populate_mock {| Ast.dir := Some "LR"; Ast.statements := [commit1] |}).1
     = ["LR"].
Proof.
  split.
  - apply (proj1 (populate_setDirection Empty_set populateCommonDb_mock
                    commitType_table
                    {| Ast.dir := Some ""; Ast.statements := [commit1] |})).
    right. reflexivity.
  - apply (proj2 (populate_setDirection Empty_set populateCommonDb_mock
                    commitType_table
                    {| Ast.dir := Some "LR"; Ast.statements := [commit1] |})).
    + reflexivity.
    + discriminate.
Defined.

Lemma default_type_Commit_Merge_witness :
  parseStatement_mock (Ast.bare "Commit") =
    emit (Sink (db.commit "" None (Js.own 0) None))
  /\ parseStatement_mock (Ast.bare "Merge") =
    emit (Sink (db.merge None "" Js.undefined None))
  /\ (parseCommit commitType_table (Ast.bare "Commit")).1.2
     <> (parseMerge commitType_table (Ast.bare "Merge")).1.2.
Proof.
  apply (default_type_Commit_Merge Empty_set commitType_table
           (Ast.bare "Commit") (Ast.bare "Merge") 0); reflexivity.
Defined.

Lemma cherryPick_arguments_witness :
  (exists tags : option (list string),
      parseStatement_mock cherryPick1 =
        emit (Sink (db.cherryPick (Some "1") "" tags (Some "2"))))
  /\ parseStatement_mock (with_tags cherryPick1 (Some [])) =
       emit (Sink (db.cherryPick (Some "1") "" None (Some "2"))).
Proof.
  split.
  - apply (cherryPick_arguments Empty_set commitType_table cherryPick1).
    reflexivity.
  - apply (cherryPick_arguments Empty_set commitType_table
             (with_tags cherryPick1 (Some []))); reflexivity.
Defined.

Lemma default_order_and_id_witness :
  parseStatement_mock branch_unordered
    = emit (Sink (db.branch (Some "develop") 0))
  /\ exists type : Js.Value Z,
      parseStatement_mock (Ast.bare "Merge") =
        emit (Sink (db.merge None "" type None)).
Proof.
  apply (default_order_and_id Empty_set commitType_table
           branch_unordered (Ast.bare "Merge")); reflexivity.
Defined.

Lemma empty_tags_kept_witness :
  (exists type : Js.Value Z,
      parseStatement_mock (with_tags commit1 (Some [])) =
        emit (Sink (db.commit "test" (Some "1") type (Some []))))
  /\ (exists type : Js.Value Z,
      parseStatement_mock (with_tags merge1 (Some [])) =
        emit (Sink (db.merge (Some "newBranch") "1" type (Some []))))
  /\ parseStatement_mock (with_tags cherryPick1 (Some [])) =
       emit (Sink (db.cherryPick (Some "1") "" None (Some "2"))).
Proof.
  apply (empty_tags_kept Empty_set commitType_table
           (with_tags commit1 (Some [])) (with_tags merge1 (Some []))
           (with_tags cherryPick1 (Some []))); reflexivity.
Defined.

(** C9 as it is written fails on the tag [constructor]: it is not a key
    of the table, and the read gives the function [Object], not
    [undefined]. *)
Lemma constructor_type_counterexample :
  ~ (forall (s : Ast.Statement) (t : string),
        Ast.dollar_type s = "Commit" -> Ast.type s = Some t ->
        commitType_table !! t = None ->
        parseStatement_mock s =
          emit (Sink (db.commit (default "" (Ast.message s)) (Ast.id s)
                        Js.undefined (Ast.tags s)))).
Proof.
  intros H.
  specialize (H (with_type commit1 (Some "constructor")) "constructor"
                eq_refl eq_refl eq_refl).
  discriminate H.
Qed.

Lemma unknown_type_no_fallback_witness :
  parseStatement_mock (with_type commit1 (Some "SQUASH")) =
    emit (Sink (db.commit "test" (Some "1")
                  (Js.get commitType_table "SQUASH")
                  (Some ["tag1"; "tag2"])))
  /\ Js.get commitType_table "SQUASH" <> Js.get commitType_table "NORMAL"
  /\ (Js.Object_prototype !! "SQUASH" = None ->
      Js.get commitType_table "SQUASH" = Js.undefined).
Proof.
  apply (unknown_type_no_fallback Empty_set commitType_table
           (with_type commit1 (Some "SQUASH")) "SQUASH" 0); reflexivity.
Defined.

(** ** Two runs, any two databases *)


(** X2.  Against a database whose methods return, with a common set-up
    that returns, [populate] returns if and only if no statement is
    tagged with the name of one of the ten members of [Object.prototype]
    whose call throws. *)
Theorem populate_on_completion (commitType : gmap string Z)
    (DB Answer : Type) (respond : db.Call -> DB -> DB * Answer)
    (commonSetup : Ast.GitGraph -> DB -> DB)
    (w : World DB) (ast : Ast.GitGraph) :
  (populate_on commitType respond commonSetup ast w).2 = Js.Normal
  <-> Forall (fun s => Ast.dollar_type s ∉ aborting_tags)
        (Ast.statements ast).
Proof.
  destruct (populate_on_trace Empty_set populateCommonDb_mock commitType
              DB Answer respond commonSetup ast w) as (_ & _ & ->).
  destruct (populate_run Empty_set populateCommonDb_mock commitType ast)
    as (_ & _ & ->).
  rewrite <- forallb_aborts.
  by destruct (forallb _ (Ast.statements ast)).
Qed.

(** ** The further properties on concrete trees *)

(** ** The further properties on concrete trees *)

Lemma populate_off_prototype_witness :
  (populate_mock
     {| Ast.dir := Some "LR";
        Ast.statements := [branch1; Ast.bare "Tag"; checkout1] |}).2
    = Js.Normal
  /\ sink_calls
       (populate_mock
          {| Ast.dir := Some "LR";
             Ast.statements := [branch1; Ast.bare "Tag"; checkout1] |}).1 =
       [ db.setDirection "LR"; db.branch (Some "newBranch") 1;
         db.checkout (Some "newBranch") ]
  /\ log_errors
       (populate_mock
          {| Ast.dir := Some "LR";
             Ast.statements := [branch1; Ast.bare "Tag"; checkout1] |}).1
     = ["Unknown statement type: Tag"].
Proof.
  apply (populate_off_prototype Empty_set populateCommonDb_mock
           commitType_table
           {| Ast.dir := Some "LR";
              Ast.statements := [branch1; Ast.bare "Tag"; checkout1] |}).
  repeat constructor.
Defined.

Lemma populate_call_count_witness :
  length
    (sink_calls
       (populate_mock
          {| Ast.dir := Some "LR";
             Ast.statements :=
               [checkout1; Ast.bare "Tag"; checkout1; branch1;
                checkout1] |}).1)
  = 5%nat.
Proof.
  apply (populate_call_count Empty_set populateCommonDb_mock commitType_table
           {| Ast.dir := Some "LR";
              Ast.statements :=
                [checkout1; Ast.bare "Tag"; checkout1; branch1;
                 checkout1] |}).
  repeat constructor; by (apply (bool_decide_unpack _); vm_compute).
Defined.

Lemma populate_filter_recognized_witness :
  sink_calls
    (populate_mock
       {| Ast.dir := Some "TB"; Ast.statements := [branch1; checkout1] |}).1
  = sink_calls
      (populate_mock
         {| Ast.dir := Some "TB";
            Ast.statements :=
              [branch1; Ast.bare "Tag"; checkout1; Ast.bare "toString"] |}).1.
Proof.
  apply (populate_filter_recognized Empty_set populateCommonDb_mock
           commitType_table
           {| Ast.dir := Some "TB";
              Ast.statements :=
                [branch1; Ast.bare "Tag"; checkout1; Ast.bare "toString"] |}).
  repeat constructor; by (apply (bool_decide_unpack _); vm_compute).
Defined.


Lemma commit_message_witness :
  (exists type : Js.Value Z,
      (Ast.message (Ast.bare "Commit") = None ->
       parseStatement_mock (Ast.bare "Commit") =
         emit (Sink (db.commit "" None type None)))
      /\ (forall m : string,
            Ast.message (Ast.bare "Commit") = Some m ->
            parseStatement_mock (Ast.bare "Commit") =
              emit (Sink (db.commit m None type None))))
  /\ (exists type : Js.Value Z,
        (Ast.message commit1 = None ->
         parseStatement_mock commit1 =
           emit (Sink (db.commit "" (Some "1") type
                         (Some ["tag1"; "tag2"]))))
        /\ (forall m : string,
              Ast.message commit1 = Some m ->
              parseStatement_mock commit1 =
                emit (Sink (db.commit m (Some "1") type
                              (Some ["tag1"; "tag2"]))))).
Proof.
  split.
  - apply (commit_message Empty_set commitType_table (Ast.bare "Commit")).
    reflexivity.
  - apply (commit_message Empty_set commitType_table commit1).
    reflexivity.
Defined.

Lemma cherryPick_tags_witness :
  exists tags : option (list string),
    parseStatement_mock cherryPick1 =
      emit (Sink (db.cherryPick (Some "1") "" tags (Some "2")))
    /\ (tags = None <->
        Ast.tags cherryPick1 = None \/ Ast.tags cherryPick1 = Some [])
    /\ (tags <> None -> tags = Ast.tags cherryPick1).
Proof.
  apply (cherryPick_tags Empty_set commitType_table cherryPick1).
  reflexivity.
Defined.

Lemma type_shared_witness :
  exists type : Js.Value Z,
    parseStatement_mock commit1 =
      emit (Sink (db.commit "test" (Some "1") type (Some ["tag1"; "tag2"])))
    /\ parseStatement_mock merge1 =
         emit (Sink (db.merge (Some "newBranch") "1" type
                       (Some ["tag1"; "tag2"])))
    /\ (forall code : Z,
          commitType_table !! "NORMAL" = Some code -> type = Js.own code).
Proof.
  apply (type_shared Empty_set commitType_table commit1 merge1 "NORMAL");
    reflexivity.
Defined.

Lemma required_fields_as_read_witness :
  (None : option string) = Ast.id (Ast.bare "Commit").
Proof.
  apply (required_fields_as_read Empty_set commitType_table
           (Ast.bare "Commit") (db.commit "" None (Js.own 0) None)).
  reflexivity.
Defined.

Lemma explicit_NORMAL_witness :
  parseStatement_mock (with_type commit1 (Some "NORMAL"))
    = parseStatement_mock (with_type commit1 None)
  /\ parseStatement_mock (with_type merge1 (Some "NORMAL"))
     <> parseStatement_mock (with_type merge1 None).
Proof.
  apply (explicit_NORMAL Empty_set commitType_table commit1 merge1 0);
    reflexivity.
Defined.
